(** * Contacts service: field validation and contact authorization

    A shallow embedding of [src/contacts/contacts.py] (the Flask service
    that manages a user's list of linked accounts) together with proofs of
    the properties stated about its validation and authorization logic.

    Modelling conventions.
    - A Python [str] is a [string]; its characters are the 256 code points
      of [ascii].  The character classes used by the service are all ASCII
      ranges, so every other code point behaves like a non-matching one.
    - A JSON payload value is a [value]; a [dict] keyed by strings is a
      [gmap string].
    - Python exceptions are the type [exn]; code that may raise returns a
      [result].  Code that talks to the database threads a [world] through
      the monad [M].
    - Calls to [APP.logger] have no effect on any result and are left out. *)

From Stdlib Require Import Ascii String.
From stdpp Require Import gmap strings list fin_maps.

Open Scope string_scope.
Open Scope nat_scope.

Set Warnings "-register-all".

(** ** Python values *)

(** The values a decoded JSON document can hold (floats are not needed by
    any field of the service and are left out). *)
Inductive value :=
  | VNone
  | VBool (b : bool)
  | VInt (z : Z)
  | VStr (s : string)
  | VList (l : list value)
  | VDict (d : gmap string value).

(** Python truth value testing, as used by [if req['is_external'] and ...]. *)
Definition truthy (v : value) : bool :=
  match v with
  | VNone => false
  | VBool b => b
  | VInt z => negb (z =? 0)%Z
  | VStr s => negb (String.eqb s "")
  | VList l => match l with [] => false | _ => true end
  | VDict d => match map_to_list d with [] => false | _ => true end
  end.

(** [v == s] where the right operand is a [str]. *)
Definition eq_str (v : value) (s : string) : bool :=
  match v with
  | VStr t => String.eqb t s
  | _ => false
  end.

(** [x == v] where the left operand is a [str] or [None]: the value of an
    unset environment variable, or of a nullable [String] column. *)
Definition eq_opt_str (x : option string) (v : value) : bool :=
  match x, v with
  | Some s, VStr t => String.eqb s t
  | None, VNone => true
  | _, _ => false
  end.

(** ** Exceptions and results *)

Inductive exn :=
  | UserWarning (msg : string)
  | ValueError (msg : string)
  | SQLAlchemyError (err : string)
  | PermissionError
  | InvalidTokenError
  | TypeError
  | KeyError (key : string)
  | AttributeError.

Inductive result (A : Type) :=
  | Ok (a : A)
  | Raise (e : exn).
Arguments Ok {A} a.
Arguments Raise {A} e.

(** The error kinds of the specification, as the exceptions that carry them. *)
Definition MissingField : exn := UserWarning "missing required field(s)".
Definition InvalidAccountNumber : exn := UserWarning "invalid account number".
Definition InvalidRoutingNumber : exn := UserWarning "invalid routing number".
Definition InvalidLabel : exn := UserWarning "invalid account label".
Definition SelfReference : exn := ValueError "may not add yourself to contacts".
Definition DuplicateAccount : exn := ValueError "account already exists as a contact".
Definition DuplicateLabel : exn := ValueError "contact already exists with that label".

(** ** The fragment of Python's [re] used by the service *)

Module Re.

(** A parsed pattern is a sequence of nodes.  A character set is a list of
    inclusive ranges; a single set [[...]] is a repeat with bounds [1,1]. *)
Inductive node :=
  | AT_BEGINNING_STRING                       (* \A *)
  | AT_BEGINNING                              (* ^  *)
  | AT_END_STRING                             (* \Z *)
  | AT_END                                    (* $  *)
  | MAX_REPEAT (lo hi : nat) (set : list (ascii * ascii)).

Definition in_range (c : ascii) (r : ascii * ascii) : bool :=
  Nat.leb (nat_of_ascii (fst r)) (nat_of_ascii c)
  && Nat.leb (nat_of_ascii c) (nat_of_ascii (snd r)).

Definition in_set (set : list (ascii * ascii)) (c : ascii) : bool :=
  existsb (in_range c) set.

(** [set{lo,hi}] followed by the continuation [k]: takes a character of
    the set while it may, and falls back to the continuation. *)
Fixpoint repeat (set : list (ascii * ascii)) (lo hi : nat)
    (k : nat → string → bool) (pos : nat) (s : string) : bool :=
  match hi, s with
  | S hi', String c s' =>
      (in_set set c && repeat set (pred lo) hi' k (S pos) s')
      || (Nat.eqb lo 0 && k pos s)
  | _, _ => Nat.eqb lo 0 && k pos s
  end.

Definition newline : ascii := "010"%char.

(** Matching the nodes [p] at offset [pos], where [s] is the rest of the
    subject.  No flag is set: [^] only matches at the start of the string
    and [$] matches at the end of the string or just before a newline that
    ends it. *)
Fixpoint match_at (p : list node) (pos : nat) (s : string) : bool :=
  match p with
  | [] => true
  | AT_BEGINNING_STRING :: p' => Nat.eqb pos 0 && match_at p' pos s
  | AT_BEGINNING :: p' => Nat.eqb pos 0 && match_at p' pos s
  | AT_END_STRING :: p' =>
      match s with EmptyString => match_at p' pos s | _ => false end
  | AT_END :: p' =>
      match s with
      | EmptyString => match_at p' pos s
      | String c EmptyString =>
          if Ascii.eqb c newline then match_at p' pos s else false
      | _ => false
      end
  | MAX_REPEAT lo hi set :: p' => repeat set lo hi (match_at p') pos s
  end.

(** [re.match(p, v)] as a truth value: a match is sought at offset 0 only;
    a subject that is not a string raises [TypeError]. *)
Definition match_ (p : list node) (v : value) : result bool :=
  match v with
  | VStr s => Ok (match_at p 0 s)
  | _ => Raise TypeError
  end.

End Re.

(** ** Raising code: the two monads *)

Definition getitem (d : gmap string value) (key : string) : result value :=
  match d !! key with
  | Some v => Ok v
  | None => Raise (KeyError key)
  end.

#[global] Instance result_ret : MRet result := @Ok.
#[global] Instance result_bind : MBind result := λ A B f m,
  match m with
  | Ok a => f a
  | Raise e => Raise e
  end.

(** ** The contacts table and the database connection *)

(** A contact as [_get_contacts] hands it out: the four columns of a row
    other than its owner.  The columns are nullable. *)
Record contact := {
  label : option string;
  account_num : option string;
  routing_num : option string;
  is_external : option bool }.

(** A row of [CONTACTS_TABLE]. *)
Record row := {
  row_username : option string;
  row_label : option string;
  row_account_num : option string;
  row_routing_num : option string;
  row_is_external : option bool }.

(** The statements the service builds: the [select] of [_get_contacts] and
    the [insert] of [_add_contact] with its [data]. *)
Inductive statement :=
  | Select (username : string)
  | Insert (username : string) (label account_num routing_num is_external : value).

(** The state of the outside world: the stored rows in their stored order,
    the outcomes of the coming calls of [DB_CONN.execute] ([Some err] makes
    the call raise [SQLAlchemyError]; past the end every call succeeds) and
    the statements handed to [DB_CONN.execute] so far. *)
Record world := {
  table : list row;
  outcomes : list (option string);
  statements : list statement }.

Definition M (A : Type) : Type := world → result A * world.

#[global] Instance M_ret : MRet M := λ A a w, (Ok a, w).
#[global] Instance M_bind : MBind M := λ A B f m w,
  match m w with
  | (Ok a, w') => f a w'
  | (Raise e, w') => (Raise e, w')
  end.

Definition lift {A} (r : result A) : M A := λ w, (r, w).
Definition raise {A} (e : exn) : M A := λ w, (Raise e, w).

(** ** The service *)

(** What Flask hands to a view: the [Authorization] header, if any, and the
    decoded JSON body. *)
Record request := {
  authorization : option string;
  get_json : value }.

(** The claims of a verified token which the service reads.  The issuer
    puts strings there. *)
Record jwt_payload := {
  user : string;
  acct : string }.

(** The body given to [jsonify], and the view's answer with its status. *)
Inductive body :=
  | JEmpty
  | JMsg (msg : string)
  | JContacts (l : list contact).

Definition response : Type := body * nat.

(** [s.split(sep)] for a one-character separator. *)
Fixpoint split (sep : ascii) (s : string) : list string :=
  match s with
  | EmptyString => [""]
  | String c s' =>
      if Ascii.eqb c sep then "" :: split sep s'
      else match split sep s' with
           | w :: ws => String c w :: ws
           | [] => [String c ""]
           end
  end.

(** The patterns of [_validate_new_contact]. *)
Definition digits : list (ascii * ascii) := [("0", "9")]%char.
Definition alnum : list (ascii * ascii) := [("0", "9"); ("a", "z"); ("A", "Z")]%char.
Definition alnum_space : list (ascii * ascii) :=
  [("0", "9"); ("a", "z"); ("A", "Z"); (" ", " ")]%char.

(** [r'\A[0-9]{10}\Z'] *)
Definition account_num_re : list Re.node :=
  [Re.AT_BEGINNING_STRING; Re.MAX_REPEAT 10 10 digits; Re.AT_END_STRING].
(** [r'\A[0-9]{9}\Z'] *)
Definition routing_num_re : list Re.node :=
  [Re.AT_BEGINNING_STRING; Re.MAX_REPEAT 9 9 digits; Re.AT_END_STRING].
(** [r'^[0-9a-zA-Z][0-9a-zA-Z ]{0,29}$'] *)
Definition label_re : list Re.node :=
  [Re.AT_BEGINNING; Re.MAX_REPEAT 1 1 alnum; Re.MAX_REPEAT 0 29 alnum_space; Re.AT_END].

Definition fields : list string :=
  ["label"; "account_num"; "routing_num"; "is_external"].

(** [APP.config]: the entries come from the environment at start-up, and
    [os.environ.get] gives [None] for a variable that is not set. *)
Record app_config := {
  VERSION : option string;
  LOCAL_ROUTING : option string;
  PUBLIC_KEY : string }.

(** The libraries the service calls: [jwt.decode(token, key=..,
    algorithms='RS256')], which gives the payload of a token it accepts and
    raises a [jwt.exceptions.InvalidTokenError] otherwise; [bleach.clean];
    and the conversions of the database driver from a bound value to a
    [String] and to a [Boolean] column. *)
Record libraries := {
  jwt_decode : string → string → option jwt_payload;
  bleach_clean : string → string;
  string_column : value → option string;
  boolean_column : value → option bool }.

Section Service.

Variable config : app_config.
Variable lib : libraries.

(** [DB_CONN.execute(statement)] and the rows it returns. *)
Definition execute (stmt : statement) : M (list row) := λ w,
  let sent := (statements w ++ [stmt])%list in
  match outcomes w with
  | Some err :: rest =>
      (Raise (SQLAlchemyError err),
       {| table := table w; outcomes := rest; statements := sent |})
  | rest =>
      match stmt with
      | Select username =>
          (Ok (filter (λ r, row_username r = Some username) (table w)),
           {| table := table w; outcomes := tail rest; statements := sent |})
      | Insert username label account_num routing_num is_external =>
          (Ok [],
           {| table := (table w ++
                [{| row_username := Some username;
                    row_label := string_column lib label;
                    row_account_num := string_column lib account_num;
                    row_routing_num := string_column lib routing_num;
                    row_is_external := boolean_column lib is_external |}])%list;
              outcomes := tail rest; statements := sent |})
      end
  end.

Definition _validate_new_contact (req : gmap string value) : result () :=
  if existsb (λ f, bool_decide (req !! f = None)) fields
  then Raise (UserWarning "missing required field(s)")
  else
    account_num ← getitem req "account_num";
    m ← Re.match_ account_num_re account_num;
    if negb m then Raise (UserWarning "invalid account number")
    else
      routing_num ← getitem req "routing_num";
      m ← Re.match_ routing_num_re routing_num;
      if negb m then Raise (UserWarning "invalid routing number")
      else
        is_external ← getitem req "is_external";
        external_local ←
          (if truthy is_external
           then routing_num ← getitem req "routing_num";
                Ok (eq_opt_str (LOCAL_ROUTING config) routing_num)
           else Ok false);
        if external_local : bool then Raise (UserWarning "invalid routing number")
        else
          label ← getitem req "label";
          m ← Re.match_ label_re label;
          if negb m then Raise (UserWarning "invalid account label")
          else Ok ().

Definition _get_contacts (username : string) : M (list contact) :=
  result ← execute (Select username);
  mret (map (λ row,
               {| label := row_label row;
                  account_num := row_account_num row;
                  routing_num := row_routing_num row;
                  is_external := row_is_external row |}) result).

(** The body of the loop of [_check_contact_allowed], over the contacts
    that remain. *)
Fixpoint check_contacts (req : gmap string value) (contacts : list contact)
    : result () :=
  match contacts with
  | [] => Ok ()
  | contact :: contacts' =>
      account_num' ← getitem req "account_num";
      same_account ←
        (if eq_opt_str (account_num contact) account_num'
         then routing_num' ← getitem req "routing_num";
              Ok (eq_opt_str (routing_num contact) routing_num')
         else Ok false);
      if same_account : bool
      then Raise (ValueError "account already exists as a contact")
      else
        label' ← getitem req "label";
        if eq_opt_str (label contact) label'
        then Raise (ValueError "contact already exists with that label")
        else check_contacts req contacts'
  end.

Definition _check_contact_allowed (username accountid : string)
    (req : gmap string value) : M () :=
  self ← lift (account_num ← getitem req "account_num";
               if eq_str account_num accountid
               then routing_num ← getitem req "routing_num";
                    Ok (eq_opt_str (LOCAL_ROUTING config) routing_num)
               else Ok false);
  if self : bool then raise (ValueError "may not add yourself to contacts")
  else
    contacts ← _get_contacts username;
    lift (check_contacts req contacts).

Definition _add_contact (username : string) (contact : gmap string value)
    : M () :=
  label ← lift (getitem contact "label");
  account_num ← lift (getitem contact "account_num");
  routing_num ← lift (getitem contact "routing_num");
  is_external ← lift (getitem contact "is_external");
  _ ← execute (Insert username label account_num routing_num is_external);
  mret ().

(** The token of a request: the last blank-separated piece of a non-empty
    [Authorization] header. *)
Definition token_of (request : request) : string :=
  match authorization request with
  | Some auth_header =>
      if negb (String.eqb auth_header "")
      then List.last (split " " auth_header) ""
      else ""
  | None => ""
  end.

(** [jwt.decode] followed by the comparison with the owner of the route. *)
Definition authenticate (username : string) (request : request) : M jwt_payload :=
  match jwt_decode lib (token_of request) (PUBLIC_KEY config) with
  | None => raise InvalidTokenError
  | Some auth_payload =>
      if negb (String.eqb username (user auth_payload))
      then raise PermissionError
      else mret auth_payload
  end.

(** [bleach.clean(v) if isinstance(v, str) else v] *)
Definition clean (v : value) : value :=
  match v with
  | VStr s => VStr (bleach_clean lib s)
  | _ => v
  end.

(** The [try] block of [add_contact]; a body that is not a JSON object has
    no [items]. *)

Definition add_contact_try (username : string) (request : request) : M response :=
  auth_payload ← authenticate username request;
  req ← match get_json request with
        | VDict d => mret (clean <$> d)
        | _ => raise AttributeError
        end;
  _ ← lift (_validate_new_contact req);
  _ ← _check_contact_allowed username (acct auth_payload) req;
  _ ← _add_contact username req;
  mret (JEmpty, 201).

(** [POST /contacts/<username>]: the [try] block under its [except]
    clauses.  An exception none of them catches leaves the view. *)
Definition add_contact (username : string) (request : request) : M response := λ w,
  match add_contact_try username request w with
  | (Raise PermissionError, w') | (Raise InvalidTokenError, w') =>
      (Ok (JMsg "authentication denied", 401), w')
  | (Raise (UserWarning warn), w') => (Ok (JMsg warn, 400), w')
  | (Raise (ValueError err), w') => (Ok (JMsg err, 409), w')
  | (Raise (SQLAlchemyError err), w') => (Ok (JMsg "failed to add contact", 500), w')
  | other => other
  end.

(** [GET /contacts/<username>]. *)
Definition get_contacts (username : string) (request : request) : M response := λ w,
  match (auth_payload ← authenticate username request;
         contacts_list ← _get_contacts username;
         mret (JContacts contacts_list, 200)) w with
  | (Raise PermissionError, w') | (Raise InvalidTokenError, w') =>
      (Ok (JMsg "authentication denied", 401), w')
  | (Raise (SQLAlchemyError err), w') =>
      (Ok (JMsg "failed to retrieve contacts list", 500), w')
  | other => other
  end.

End Service.

(** ** Sample data *)

Definition sample_config : app_config :=
  {| VERSION := Some "v0.2.0";
     LOCAL_ROUTING := Some "883745000";
     PUBLIC_KEY := "public key" |}.

(** One token is accepted, that of alice; cleaning leaves plain text as it
    is; the driver stores strings and booleans. *)
Definition sample_lib : libraries :=
  {| jwt_decode := λ token key,
       if String.eqb token "alice.token"
       then Some {| user := "alice"; acct := "1234567890" |}
       else None;
     bleach_clean := λ s, s;
     string_column := λ v, match v with VStr s => Some s | _ => None end;
     boolean_column := λ v, match v with VBool b => Some b | _ => None end |}.

Definition candidate (label account_num routing_num : string)
    (is_external : bool) : gmap string value :=
  <["label" := VStr label]>
    (<["account_num" := VStr account_num]>
       (<["routing_num" := VStr routing_num]>
          (<["is_external" := VBool is_external]> ∅))).

Definition stored (username label account_num routing_num : string) : row :=
  {| row_username := Some username;
     row_label := Some label;
     row_account_num := Some account_num;
     row_routing_num := Some routing_num;
     row_is_external := Some false |}.

Definition bob : contact :=
  {| label := Some "bob"; account_num := Some "2222222222";
     routing_num := Some "333333333"; is_external := Some false |}.

Definition carol : contact :=
  {| label := Some "carol"; account_num := Some "1111111111";
     routing_num := Some "222222222"; is_external := Some false |}.

(** alice has the contacts [bob] and [carol], stored in this order. *)
Definition alice_world (outcomes : list (option string)) : world :=
  {| table := [stored "alice" "bob" "2222222222" "333333333";
               stored "dave" "alice" "1234567890" "883745000";
               stored "alice" "carol" "1111111111" "222222222"];
     outcomes := outcomes;
     statements := [] |}.

(** Thirty letters and a final newline: thirty-one characters. *)
Definition long_label : string :=
  "aaaaaaaaaaaaaaaaaaaaaaaaaaaaaa" ++ String Re.newline "".

Definition post (token : string) (req : gmap string value) : request :=
  {| authorization := Some ("Bearer " ++ token); get_json := VDict req |}.

(** ** The vocabulary of the properties *)

(** Every character of [s] satisfies [P]. *)
Fixpoint all_chars (P : ascii → Prop) (s : string) : Prop :=
  match s with
  | EmptyString => True
  | String c s' => P c ∧ all_chars P s'
  end.

Definition between (lo hi c : ascii) : Prop :=
  nat_of_ascii lo ≤ nat_of_ascii c ≤ nat_of_ascii hi.

Definition digit (c : ascii) : Prop := between "0" "9" c.

Definition alphanumeric (c : ascii) : Prop :=
  between "0" "9" c ∨ between "a" "z" c ∨ between "A" "Z" c.

Definition alphanumeric_or_space (c : ascii) : Prop :=
  alphanumeric c ∨ c = " "%char.

(** A string of exactly [n] digits. *)
Definition digit_string (n : nat) (s : string) : Prop :=
  String.length s = n ∧ all_chars digit s.

(** A label as the data model words it: it starts with an alphanumeric
    character, goes on with alphanumeric characters and spaces, and has
    between [1] and [n] characters. *)
Definition plain_label (n : nat) (s : string) : Prop :=
  match s with
  | EmptyString => False
  | String c s' =>
      alphanumeric c ∧ all_chars alphanumeric_or_space s' ∧ String.length s ≤ n
  end.

(** The candidate [req] has all four fields. *)
Definition all_present (req : gmap string value) : Prop :=
  Forall (λ f, is_Some (req !! f)) fields.

(** The existing contact has the candidate's account and routing numbers. *)
Definition same_account (req : gmap string value) (c : contact) : Prop :=
  ∃ a r, req !! "account_num" = Some a ∧ req !! "routing_num" = Some r ∧
         eq_opt_str (account_num c) a = true ∧ eq_opt_str (routing_num c) r = true.

(** The existing contact has the candidate's label. *)
Definition same_label (req : gmap string value) (c : contact) : Prop :=
  ∃ l, req !! "label" = Some l ∧ eq_opt_str (label c) l = true.

(** The candidate is the owner's own account at the local bank. *)
Definition self_reference (config : app_config) (accountid : string)
    (req : gmap string value) : Prop :=
  ∃ a r, req !! "account_num" = Some a ∧ req !! "routing_num" = Some r ∧
         eq_str a accountid = true ∧ eq_opt_str (LOCAL_ROUTING config) r = true.

(** The self-reference test that opens [_check_contact_allowed]. *)
Definition self_test (config : app_config) (accountid : string)
    (req : gmap string value) : result bool :=
  account_num ← getitem req "account_num";
  if eq_str account_num accountid
  then routing_num ← getitem req "routing_num";
       Ok (eq_opt_str (LOCAL_ROUTING config) routing_num)
  else Ok false.

(** The request did nothing to the stored rows and sent at most the
    [select] of [username]. *)
Definition read_only (username : string) (w w' : world) : Prop :=
  table w' = table w ∧
  (statements w' = statements w ∨
   statements w' = (statements w ++ [Select username])%list).

(** ** Facts about the matcher *)

Lemma in_range_between c lo hi :
  Re.in_range c (lo, hi) = true ↔ between lo hi c.
Proof.
  unfold Re.in_range, between; simpl.
  rewrite andb_true_iff, !Nat.leb_le. tauto.
Qed.

Lemma in_set_digits c : Re.in_set digits c = true ↔ digit c.
Proof.
  unfold Re.in_set, digits, digit; simpl.
  rewrite orb_false_r. apply in_range_between.
Qed.

Lemma in_set_alnum c : Re.in_set alnum c = true ↔ alphanumeric c.
Proof.
  unfold Re.in_set, alnum, alphanumeric; simpl.
  rewrite orb_false_r, !orb_true_iff, !in_range_between. tauto.
Qed.

Lemma between_space c : between " " " " c ↔ c = " "%char.
Proof.
  unfold between. split; [|intros ->; lia].
  intros H. rewrite <- (ascii_nat_embedding c).
  replace (nat_of_ascii c) with (nat_of_ascii " ") by lia. reflexivity.
Qed.

Lemma in_set_alnum_space c :
  Re.in_set alnum_space c = true ↔ alphanumeric_or_space c.
Proof.
  unfold Re.in_set, alnum_space, alphanumeric_or_space, alphanumeric; simpl.
  rewrite orb_false_r, !orb_true_iff, !in_range_between, between_space. tauto.
Qed.

Lemma all_chars_impl (P Q : ascii → Prop) s :
  (∀ c, P c → Q c) → all_chars P s → all_chars Q s.
Proof. intros HPQ. induction s; simpl; intuition. Qed.

Lemma all_chars_app (P : ascii → Prop) s t :
  all_chars P (s ++ t) ↔ all_chars P s ∧ all_chars P t.
Proof. induction s; simpl; [tauto | rewrite IHs; tauto]. Qed.

Lemma app_empty_string (s : string) : "" ++ s = s.
Proof. reflexivity. Qed.

Lemma app_String (c : ascii) (s t : string) : String c s ++ t = String c (s ++ t).
Proof. reflexivity. Qed.

Ltac string_simpl :=
  repeat (rewrite ?app_empty_string, ?app_String in *; simpl in *).

(** A bounded repeat succeeds exactly when the subject splits into a prefix
    of admissible length, made of characters of the set, and a rest on
    which the continuation succeeds. *)
Lemma repeat_spec set k hi : ∀ lo pos s,
  Re.repeat set lo hi k pos s = true ↔
  ∃ pre suf, s = pre ++ suf ∧ lo ≤ String.length pre ≤ hi ∧
             all_chars (λ c, Re.in_set set c = true) pre ∧
             k (pos + String.length pre) suf = true.
Proof.
  induction hi as [|hi IH]; intros lo pos s.
  - assert (Re.repeat set lo 0 k pos s = (Nat.eqb lo 0 && k pos s)) as ->
      by (destruct s; reflexivity).
    rewrite andb_true_iff, Nat.eqb_eq. split.
    + intros [-> Hk]. exists "", s. simpl. rewrite Nat.add_0_r. auto with lia.
    + intros (pre & suf & -> & Hlen & _ & Hk).
      destruct pre; simpl in *; [|lia].
      rewrite Nat.add_0_r in Hk. split; [lia | assumption].
  - destruct s as [|c s].
    + simpl. rewrite andb_true_iff, Nat.eqb_eq. split.
      * intros [-> Hk]. exists "", "". simpl. rewrite Nat.add_0_r. auto with lia.
      * intros (pre & suf & Heq & Hlen & _ & Hk).
        destruct pre; string_simpl; [|discriminate]. subst suf.
        rewrite Nat.add_0_r in Hk. split; [lia | assumption].
    + simpl. rewrite orb_true_iff, !andb_true_iff, Nat.eqb_eq, IH. split.
      * intros [[Hc (pre & suf & -> & Hlen & Hall & Hk)] | [-> Hk]].
        -- exists (String c pre), suf. string_simpl.
           rewrite Nat.add_succ_r. repeat split; auto with lia.
        -- exists "", (String c s). string_simpl.
           rewrite Nat.add_0_r. auto with lia.
      * intros (pre & suf & Heq & Hlen & Hall & Hk).
        destruct pre as [|c' pre]; string_simpl.
        -- right. subst suf. rewrite Nat.add_0_r in Hk. split; [lia | assumption].
        -- left. injection Heq as <- ->. destruct Hall as [Hc Hall].
           split; [assumption|]. exists pre, suf.
           rewrite Nat.add_succ_r in Hk. repeat split; auto with lia.
Qed.

Lemma app_empty_r_string (s : string) : s ++ "" = s.
Proof. induction s; string_simpl; [reflexivity | now f_equal]. Qed.

Lemma at_end_string_spec pos s :
  Re.match_at [Re.AT_END_STRING] pos s = true ↔ s = "".
Proof. destruct s; simpl; split; congruence. Qed.

Lemma at_end_spec pos s :
  Re.match_at [Re.AT_END] pos s = true ↔ s = "" ∨ s = String Re.newline "".
Proof.
  destruct s as [|c [|c' s]]; simpl.
  - intuition.
  - destruct (Ascii.eqb_spec c Re.newline) as [->|Hne]; split; auto;
      try discriminate.
    intros [H|H]; congruence.
  - split; [discriminate | intros [?|?]; discriminate].
Qed.

(** [\A[0-9]{n}\Z] accepts the strings of exactly [n] digits. *)
Lemma digits_re_spec n s :
  Re.match_at [Re.AT_BEGINNING_STRING; Re.MAX_REPEAT n n digits; Re.AT_END_STRING] 0 s
    = true ↔ digit_string n s.
Proof.
  cbn [Re.match_at Nat.eqb andb]. rewrite repeat_spec. unfold digit_string. split.
  - intros (pre & suf & -> & Hlen & Hall & Hend).
    apply (at_end_string_spec 0) in Hend as ->. rewrite app_empty_r_string.
    split; [lia|]. eapply all_chars_impl; [|exact Hall].
    intros c. apply in_set_digits.
  - intros [Hlen Hall]. exists s, "". rewrite app_empty_r_string.
    repeat split; try lia.
    eapply all_chars_impl; [|exact Hall]. intros c. apply in_set_digits.
Qed.

(** [^[0-9a-zA-Z][0-9a-zA-Z ]{0,29}$] accepts the plain labels of up to 30
    characters, and each of them followed by one newline. *)
Lemma label_re_spec s :
  Re.match_at label_re 0 s = true ↔
  plain_label 30 s ∨ ∃ t, s = t ++ String Re.newline "" ∧ plain_label 30 t.
Proof.
  unfold label_re. cbn [Re.match_at Nat.eqb andb]. rewrite repeat_spec. split.
  - intros (pre & suf & -> & Hlen & Hall & Hrest).
    apply repeat_spec in Hrest as (mid & fin & -> & Hlen' & Hall' & Hend).
    apply (at_end_spec 0) in Hend.
    destruct pre as [|c [|c' pre]]; simpl in Hlen; try lia.
    destruct Hall as [Hc _]. apply in_set_alnum in Hc.
    assert (all_chars alphanumeric_or_space mid) as Hmid.
    { eapply all_chars_impl; [|exact Hall']. intros x. apply in_set_alnum_space. }
    string_simpl. destruct Hend as [-> | ->].
    + left. rewrite app_empty_r_string. simpl. auto with lia.
    + right. exists (String c mid). string_simpl. auto with lia.
  - intros [Hs | (t & -> & Ht)].
    + destruct s as [|c s]; simpl in Hs; [tauto|].
      destruct Hs as (Hc & Hall & Hlen).
      exists (String c ""), s. rewrite app_String, app_empty_string.
      cbn [String.length all_chars].
      repeat split; try lia; [now apply in_set_alnum|].
      change (Re.repeat alnum_space 0 29 (Re.match_at [Re.AT_END]) (0 + 1) s = true).
      apply repeat_spec. exists s, "". rewrite app_empty_r_string.
      repeat split; try lia.
      eapply all_chars_impl; [|exact Hall]. intros x. apply in_set_alnum_space.
    + destruct t as [|c t]; simpl in Ht; [tauto|].
      destruct Ht as (Hc & Hall & Hlen).
      exists (String c ""), (t ++ String Re.newline "").
      rewrite !app_String, app_empty_string. cbn [String.length all_chars].
      repeat split; try lia; [now apply in_set_alnum|].
      change (Re.repeat alnum_space 0 29 (Re.match_at [Re.AT_END]) (0 + 1)
                (t ++ String Re.newline "") = true).
      apply repeat_spec. exists t, (String Re.newline "").
      repeat split; try lia.
      eapply all_chars_impl; [|exact Hall]. intros x. apply in_set_alnum_space.
Qed.

(** ** Facts about the field validator *)

Lemma missing_existsb (req : gmap string value) :
  existsb (λ f, bool_decide (req !! f = None)) fields = true ↔
  ∃ f, f ∈ fields ∧ req !! f = None.
Proof.
  rewrite existsb_exists.
  split; intros (f & Hf & Hnone); exists f; split;
    try (now apply list_elem_of_In).
  - now apply bool_decide_eq_true in Hnone.
  - now apply bool_decide_eq_true.
Qed.

Lemma present_existsb (req : gmap string value) :
  all_present req →
  existsb (λ f, bool_decide (req !! f = None)) fields = false.
Proof.
  intros Hall.
  destruct (existsb _ fields) eqn:E; [|reflexivity].
  apply missing_existsb in E as (f & Hf & Hnone).
  unfold all_present in Hall. rewrite Forall_forall in Hall.
  destruct (Hall f Hf) as [v Hv]. congruence.
Qed.

Lemma not_true_false (b : bool) : b ≠ true → b = false.
Proof. now destruct b. Qed.

(** Unfolds the validator on a candidate whose fields are all there, and
    replaces the lookups that the context determines. *)
Ltac validate_step :=
  unfold _validate_new_contact, getitem;
  rewrite ?present_existsb by assumption;
  repeat match goal with
         | H : ?req !! ?k = Some _ |- context [?req !! ?k] => rewrite H
         end;
  cbn [mbind result_bind Re.match_].

Section Validator.

Variable config : app_config.

Lemma validate_missing (req : gmap string value) :
  (∃ f, f ∈ fields ∧ req !! f = None) →
  _validate_new_contact config req = Raise MissingField.
Proof.
  intros H. apply missing_existsb in H.
  unfold _validate_new_contact. now rewrite H.
Qed.

Lemma validate_account_bad (req : gmap string value) a :
  all_present req →
  req !! "account_num" = Some (VStr a) →
  ¬ digit_string 10 a →
  _validate_new_contact config req = Raise InvalidAccountNumber.
Proof.
  intros Hall Ha Hbad. validate_step.
  rewrite (not_true_false (Re.match_at account_num_re 0 a)); [reflexivity|].
  intros Hm. now apply digits_re_spec in Hm.
Qed.

Lemma validate_routing_bad (req : gmap string value) a r :
  all_present req →
  req !! "account_num" = Some (VStr a) → digit_string 10 a →
  req !! "routing_num" = Some (VStr r) → ¬ digit_string 9 r →
  _validate_new_contact config req = Raise InvalidRoutingNumber.
Proof.
  intros Hall Ha Hda Hr Hbad. validate_step.
  apply digits_re_spec in Hda. unfold account_num_re. rewrite Hda.
  cbn [negb].
  rewrite (not_true_false (Re.match_at routing_num_re 0 r)); [reflexivity|].
  intros Hm. now apply digits_re_spec in Hm.
Qed.

Lemma validate_external_local (req : gmap string value) a r e :
  all_present req →
  req !! "account_num" = Some (VStr a) → digit_string 10 a →
  req !! "routing_num" = Some (VStr r) →
  req !! "is_external" = Some e → truthy e = true →
  LOCAL_ROUTING config = Some r →
  _validate_new_contact config req = Raise InvalidRoutingNumber.
Proof.
  intros Hall Ha Hda Hr He Ht Hlocal. validate_step.
  apply digits_re_spec in Hda. unfold account_num_re. rewrite Hda.
  cbn [negb].
  destruct (Re.match_at routing_num_re 0 r); cbn [negb]; [|reflexivity].
  rewrite Ht, Hlocal. cbn [mbind result_bind eq_opt_str].
  now rewrite String.eqb_refl.
Qed.

(** Past the four earlier checks the verdict is that of the label pattern. *)
Lemma validate_label (req : gmap string value) a r e l :
  all_present req →
  req !! "account_num" = Some (VStr a) → digit_string 10 a →
  req !! "routing_num" = Some (VStr r) → digit_string 9 r →
  req !! "is_external" = Some e →
  truthy e && eq_opt_str (LOCAL_ROUTING config) (VStr r) = false →
  req !! "label" = Some (VStr l) →
  _validate_new_contact config req =
    if Re.match_at label_re 0 l then Ok () else Raise InvalidLabel.
Proof.
  intros Hall Ha Hda Hr Hdr He Hext Hl. validate_step.
  apply digits_re_spec in Hda, Hdr.
  unfold account_num_re, routing_num_re. rewrite Hda, Hdr. cbn [negb].
  destruct (truthy e); cbn [andb] in Hext; cbn [mbind result_bind];
    rewrite ?Hext; now destruct (Re.match_at label_re 0 l).
Qed.

(** A candidate whose account number passes is never reported for it. *)
Lemma validate_account_good (req : gmap string value) a :
  all_present req →
  req !! "account_num" = Some (VStr a) → digit_string 10 a →
  _validate_new_contact config req ≠ Raise InvalidAccountNumber.
Proof.
  intros Hall Ha Hda. validate_step.
  apply digits_re_spec in Hda. unfold account_num_re. rewrite Hda.
  cbn [negb].
  repeat first
    [ progress cbn [mbind result_bind Re.match_ negb]
    | match goal with |- context [Re.match_ _ ?v] => destruct v end
    | case_match ];
    unfold InvalidAccountNumber; congruence.
Qed.

End Validator.

(** ** Facts about the store gateway and the authorization checker *)

Section Checker.

Variable config : app_config.
Variable lib : libraries.

Lemma get_contacts_fails username w err rest :
  outcomes w = Some err :: rest →
  _get_contacts lib username w =
    (Raise (SQLAlchemyError err),
     {| table := table w; outcomes := rest;
        statements := (statements w ++ [Select username])%list |}).
Proof.
  intros Hout. unfold _get_contacts, mbind, M_bind, execute. now rewrite Hout.
Qed.

Lemma get_contacts_read_only username w res w' :
  _get_contacts lib username w = (res, w') → read_only username w w'.
Proof.
  unfold _get_contacts, mbind, M_bind, mret, M_ret, execute, read_only.
  destruct (outcomes w) as [|[err|] rest]; intros [= <- <-]; simpl; auto.
Qed.

Lemma self_test_true accountid req :
  self_reference config accountid req → self_test config accountid req = Ok true.
Proof.
  intros (a & r & Ha & Hr & Hacc & Hrout).
  unfold self_test, getitem. rewrite Ha. cbn [mbind result_bind].
  rewrite Hacc, Hr. cbn [mbind result_bind]. now rewrite Hrout.
Qed.

Lemma self_test_false accountid req :
  is_Some (req !! "account_num") → is_Some (req !! "routing_num") →
  ¬ self_reference config accountid req → self_test config accountid req = Ok false.
Proof.
  intros [a Ha] [r Hr] Hnot.
  unfold self_test, getitem. rewrite Ha. cbn [mbind result_bind].
  destruct (eq_str a accountid) eqn:Hacc; [|reflexivity].
  rewrite Hr. cbn [mbind result_bind].
  destruct (eq_opt_str (LOCAL_ROUTING config) r) eqn:Hrout; [|reflexivity].
  exfalso. apply Hnot. now exists a, r.
Qed.

Lemma check_contact_allowed_eq username accountid req w :
  _check_contact_allowed config lib username accountid req w =
    match self_test config accountid req with
    | Raise e => (Raise e, w)
    | Ok true => (Raise SelfReference, w)
    | Ok false =>
        match _get_contacts lib username w with
        | (Ok contacts, w') => (check_contacts req contacts, w')
        | (Raise e, w') => (Raise e, w')
        end
    end.
Proof.
  unfold _check_contact_allowed. fold (self_test config accountid req).
  unfold mbind at 1. unfold M_bind, lift.
  now destruct (self_test config accountid req) as [[|]|e].
Qed.

Lemma check_contact_allowed_read_only username accountid req w res w' :
  _check_contact_allowed config lib username accountid req w = (res, w') →
  read_only username w w'.
Proof.
  rewrite check_contact_allowed_eq.
  destruct (self_test config accountid req) as [[|]|e];
    try (intros [= <- <-]; split; auto).
  destruct (_get_contacts lib username w) as [[cs|e] w1] eqn:Hget.
  all: intros [= <- <-]; eapply get_contacts_read_only; eassumption.
Qed.

End Checker.

(** One turn of the loop over the existing contacts, for a candidate whose
    three compared fields are there. *)
Lemma check_contacts_cons (req : gmap string value) a r l c cs :
  req !! "account_num" = Some a → req !! "routing_num" = Some r →
  req !! "label" = Some l →
  check_contacts req (c :: cs) =
    if eq_opt_str (account_num c) a && eq_opt_str (routing_num c) r
    then Raise DuplicateAccount
    else if eq_opt_str (label c) l then Raise DuplicateLabel
    else check_contacts req cs.
Proof.
  intros Ha Hr Hl. cbn [check_contacts]. unfold getitem.
  rewrite Ha, Hl. cbn [mbind result_bind].
  destruct (eq_opt_str (account_num c) a); cbn [andb mbind result_bind];
    [rewrite Hr; cbn [mbind result_bind];
     destruct (eq_opt_str (routing_num c) r)|];
    reflexivity.
Qed.

Lemma same_account_iff (req : gmap string value) a r c :
  req !! "account_num" = Some a → req !! "routing_num" = Some r →
  same_account req c ↔
  eq_opt_str (account_num c) a && eq_opt_str (routing_num c) r = true.
Proof.
  intros Ha Hr. rewrite andb_true_iff. split.
  - intros (a' & r' & Ha' & Hr' & H1 & H2). now simplify_eq.
  - intros [H1 H2]. now exists a, r.
Qed.

Lemma same_label_iff (req : gmap string value) l c :
  req !! "label" = Some l →
  same_label req c ↔ eq_opt_str (label c) l = true.
Proof.
  intros Hl. split.
  - intros (l' & Hl' & H). now simplify_eq.
  - intros H. now exists l.
Qed.

(** Entries that conflict in neither way are passed over. *)
Lemma check_contacts_skip (req : gmap string value) a r l pre cs :
  req !! "account_num" = Some a → req !! "routing_num" = Some r →
  req !! "label" = Some l →
  Forall (λ c, ¬ same_account req c ∧ ¬ same_label req c) pre →
  check_contacts req (pre ++ cs) = check_contacts req cs.
Proof.
  intros Ha Hr Hl. induction 1 as [|c pre [Hacc Hlab] _ IH]; [reflexivity|].
  rewrite <- app_comm_cons, (check_contacts_cons req a r l) by assumption.
  rewrite (same_account_iff req a r) in Hacc by assumption.
  rewrite (same_label_iff req l) in Hlab by assumption.
  apply not_true_false in Hacc, Hlab. now rewrite Hacc, Hlab.
Qed.

(** ** Facts about the request handler *)

Section Handler.

Variable config : app_config.
Variable lib : libraries.

Lemma validate_ok_present (req : gmap string value) :
  _validate_new_contact config req = Ok () → all_present req.
Proof.
  unfold _validate_new_contact.
  destruct (existsb _ fields) eqn:E; [discriminate|]. intros _.
  apply Forall_forall. intros f Hf.
  destruct (req !! f) as [v|] eqn:Hv; [now exists v|].
  assert (existsb (λ f, bool_decide (req !! f = None)) fields = true) as E'
    by (apply missing_existsb; now exists f).
  congruence.
Qed.

Lemma all_present_lookup (req : gmap string value) f :
  all_present req → f ∈ fields → is_Some (req !! f).
Proof. unfold all_present. rewrite Forall_forall. auto. Qed.

Lemma authenticate_world username request w res w' :
  authenticate config lib username request w = (res, w') → w' = w.
Proof.
  unfold authenticate, raise, mret, M_ret.
  destruct (jwt_decode _ _ _) as [p|]; [destruct (negb _)|]; now intros [= _ <-].
Qed.

(** [_add_contact] only raises what the lookups and the connection raise. *)
Lemma add_contact_raises username (req : gmap string value) w e w' :
  _add_contact lib username req w = (Raise e, w') →
  (∃ key, e = KeyError key ∧ w' = w) ∨ (∃ err, e = SQLAlchemyError err).
Proof.
  unfold _add_contact, mbind, M_bind, lift, getitem, mret, M_ret, execute.
  repeat (destruct (req !! _); [|intros [= <- <-]; left; eauto]).
  destruct (outcomes w) as [|[err|] rest]; intros [= <- <-] || intros [=].
  right; eauto.
Qed.

(** Whatever the [try] block raises other than a database error, it raises
    before any [insert] is sent. *)
Lemma add_contact_try_raises username request w e w' :
  add_contact_try config lib username request w = (Raise e, w') →
  (∀ err, e ≠ SQLAlchemyError err) →
  read_only username w w'.
Proof.
  unfold add_contact_try. unfold mbind at 1. unfold M_bind.
  destruct (authenticate _ _ _ _ w) as [[p|e0] w0] eqn:Hauth;
    apply authenticate_world in Hauth as ->;
    [|intros [= <- <-] _; split; auto].
  unfold mbind at 1. unfold M_bind.
  destruct (get_json request) as [| | | | |d];
    try (unfold raise; intros [= <- <-] _; split; auto).
  unfold mret at 1. unfold M_ret.
  unfold mbind at 1. unfold M_bind, lift.
  destruct (_validate_new_contact config (clean lib <$> d)) as [[]|e1];
    [|intros [= <- <-] _; split; auto].
  unfold mbind at 1. unfold M_bind.
  destruct (_check_contact_allowed _ _ _ _ _ w) as [[[]|e2] w1] eqn:Hcheck;
    apply check_contact_allowed_read_only in Hcheck;
    [|now intros [= <- <-] _].
  unfold mbind, M_bind.
  destruct (_add_contact _ _ _ w1) as [[[]|e3] w2] eqn:Hadd; [intros [=]|].
  intros [= <- <-] Hnot.
  apply add_contact_raises in Hadd as [(key & _ & ->)|(err & ->)];
    [assumption | now destruct (Hnot err)].
Qed.

End Handler.

(** ** The properties of the field validator *)

(** C3. The validator checks presence, the account number, the routing
    number, the external-routing rule and the label in this order, and the
    first check that fails gives the error: a candidate that lacks one of
    the four fields fails with [MissingField] whatever the other fields
    hold, and each later check decides once the earlier ones have passed,
    whatever the fields hold that only later checks read. *)
Theorem C3_validate_order (config : app_config) (req : gmap string value) :
  ((∃ f, f ∈ fields ∧ req !! f = None) →
   _validate_new_contact config req = Raise MissingField) ∧
  (all_present req →
   ∀ a, req !! "account_num" = Some (VStr a) →
   (¬ digit_string 10 a →
    _validate_new_contact config req = Raise InvalidAccountNumber) ∧
   (digit_string 10 a →
    ∀ r, req !! "routing_num" = Some (VStr r) →
    (¬ digit_string 9 r →
     _validate_new_contact config req = Raise InvalidRoutingNumber) ∧
    (digit_string 9 r →
     ∀ e, req !! "is_external" = Some e →
     (truthy e = true → LOCAL_ROUTING config = Some r →
      _validate_new_contact config req = Raise InvalidRoutingNumber) ∧
     (truthy e && eq_opt_str (LOCAL_ROUTING config) (VStr r) = false →
      ∀ l, req !! "label" = Some (VStr l) →
      (Re.match_at label_re 0 l = false →
       _validate_new_contact config req = Raise InvalidLabel) ∧
      (Re.match_at label_re 0 l = true →
       _validate_new_contact config req = Ok ()))))).
Proof.
  split; [apply validate_missing|].
  intros Hall a Ha. split; [now apply validate_account_bad|].
  intros Hda r Hr. split; [now apply (validate_routing_bad config req a r)|].
  intros Hdr e He. split.
  - intros Ht Hlocal. now apply (validate_external_local config req a r e).
  - intros Hext l Hl.
    rewrite (validate_label config req a r e l) by assumption.
    split; now intros ->.
Qed.

(** C8. For a candidate with all four fields whose account number is a
    string, the validator fails with [InvalidAccountNumber] exactly when
    that string is not made of exactly ten digits. *)
Theorem C8_account_number_check (config : app_config) (req : gmap string value)
    (s : string) :
  all_present req →
  req !! "account_num" = Some (VStr s) →
  (_validate_new_contact config req = Raise InvalidAccountNumber ↔
   String.length s ≠ 10 ∨ ¬ all_chars digit s).
Proof.
  intros Hall Hs. split.
  - intros Hres.
    destruct (decide (String.length s = 10)) as [Hlen|Hlen]; [|now left].
    right. intros Hdigits.
    now apply (validate_account_good config req s Hall Hs (conj Hlen Hdigits)).
  - intros Hbad. apply (validate_account_bad config req s Hall Hs).
    intros [Hlen Hdigits]. destruct Hbad; contradiction.
Qed.

(** C5. A candidate with all four fields and a valid account number that is
    marked external and whose routing number is the local one fails with
    [InvalidRoutingNumber], whether or not that routing number is made of
    nine digits. *)
Theorem C5_external_local_routing (config : app_config)
    (req : gmap string value) (a r : string) :
  all_present req →
  req !! "account_num" = Some (VStr a) → digit_string 10 a →
  req !! "is_external" = Some (VBool true) →
  req !! "routing_num" = Some (VStr r) →
  LOCAL_ROUTING config = Some r →
  _validate_new_contact config req = Raise InvalidRoutingNumber.
Proof.
  intros Hall Ha Hda He Hr Hlocal.
  now apply (validate_external_local config req a r (VBool true)).
Qed.

(** C2. The label pattern ends in [$], which also matches before a final
    newline: a label of thirty letters followed by a newline has thirty-one
    characters and passes the validator. *)
Theorem C2_label_with_final_newline_passes :
  String.length long_label = 31 ∧
  ¬ all_chars alphanumeric_or_space long_label ∧
  _validate_new_contact sample_config
    (candidate long_label "9876543210" "111000025" true) = Ok ().
Proof.
  split; [reflexivity|]. split; [|vm_compute; reflexivity].
  unfold long_label. rewrite all_chars_app. intros [_ [H _]].
  destruct H as [[H|[H|H]]|H]; [| | |discriminate];
    unfold between in H; vm_compute in H; lia.
Qed.

(** ** The properties of the authorization checker *)

(** C4. A candidate whose account number is the owner's and whose routing
    number is the local one is refused with [SelfReference], whatever the
    stored contacts are. *)
Theorem C4_self_reference (config : app_config) (lib : libraries)
    (username accountid local : string) (req : gmap string value) (w : world) :
  req !! "account_num" = Some (VStr accountid) →
  req !! "routing_num" = Some (VStr local) →
  LOCAL_ROUTING config = Some local →
  fst (_check_contact_allowed config lib username accountid req w)
    = Raise SelfReference.
Proof.
  intros Ha Hr Hlocal. rewrite check_contact_allowed_eq.
  rewrite self_test_true; [reflexivity|].
  exists (VStr accountid), (VStr local). rewrite Hlocal. simpl.
  now rewrite !String.eqb_refl.
Qed.

(** C10. The self-reference test comes before the read of the store: a
    self-referencing candidate is refused with [SelfReference] and no
    statement is sent, also in a world where the read would raise. *)
Theorem C10_self_reference_before_fetch (config : app_config) (lib : libraries)
    (username accountid : string) (req : gmap string value) (w : world) :
  self_reference config accountid req →
  _check_contact_allowed config lib username accountid req w
    = (Raise SelfReference, w) ∧
  ∀ err rest, outcomes w = Some err :: rest →
    fst (_get_contacts lib username w) = Raise (SQLAlchemyError err).
Proof.
  intros Hself. split.
  - rewrite check_contact_allowed_eq. now rewrite self_test_true.
  - intros err rest Hout. now rewrite (get_contacts_fails lib username w err rest).
Qed.

(** C9. A candidate that is not a self-reference and that shares neither
    its account and routing numbers nor its label with any stored contact
    is allowed. *)
Theorem C9_no_overlap_allowed (config : app_config) (lib : libraries)
    (username accountid : string) (req : gmap string value)
    (existing : list contact) (w w' : world) :
  is_Some (req !! "account_num") → is_Some (req !! "routing_num") →
  is_Some (req !! "label") →
  ¬ self_reference config accountid req →
  _get_contacts lib username w = (Ok existing, w') →
  Forall (λ c, ¬ same_account req c ∧ ¬ same_label req c) existing →
  _check_contact_allowed config lib username accountid req w = (Ok (), w').
Proof.
  intros Ha Hr Hl Hnot Hget Hall.
  rewrite check_contact_allowed_eq, self_test_false, Hget by assumption.
  destruct Ha as [a Ha], Hr as [r Hr], Hl as [l Hl]. f_equal.
  rewrite <- (app_nil_r existing).
  now rewrite (check_contacts_skip req a r l existing []).
Qed.

(** C1, as the code has it.  The two duplicate tests are made entry by
    entry: the first stored contact that conflicts with the candidate
    decides, with [DuplicateAccount] if it has the candidate's account and
    routing numbers and with [DuplicateLabel] if it only has its label. *)
Theorem C1_first_conflicting_entry_decides (config : app_config)
    (lib : libraries) (username accountid : string) (req : gmap string value)
    (pre : list contact) (c : contact) (post : list contact) (w w' : world) :
  is_Some (req !! "account_num") → is_Some (req !! "routing_num") →
  is_Some (req !! "label") →
  ¬ self_reference config accountid req →
  _get_contacts lib username w = (Ok (pre ++ c :: post)%list, w') →
  Forall (λ c, ¬ same_account req c ∧ ¬ same_label req c) pre →
  (same_account req c →
   _check_contact_allowed config lib username accountid req w
     = (Raise DuplicateAccount, w')) ∧
  (¬ same_account req c → same_label req c →
   _check_contact_allowed config lib username accountid req w
     = (Raise DuplicateLabel, w')).
Proof.
  intros Ha Hr Hl Hnot Hget Hall.
  rewrite check_contact_allowed_eq, self_test_false, Hget by assumption.
  destruct Ha as [a Ha], Hr as [r Hr], Hl as [l Hl].
  rewrite (check_contacts_skip req a r l pre) by assumption.
  rewrite (check_contacts_cons req a r l) by assumption.
  rewrite (same_account_iff req a r), (same_label_iff req l) by assumption.
  split.
  - now intros ->.
  - intros Hacc Hlab. apply not_true_false in Hacc. now rewrite Hacc, Hlab.
Qed.

(** C1, as stated, fails: [carol] has the candidate's account and routing
    numbers and [bob], stored before her, has the candidate's label; the
    candidate is refused with [DuplicateLabel]. *)
Lemma C1_duplicate_label_reported_first :
  let req := candidate "bob" "1111111111" "222222222" false in
  let w := alice_world [] in
  (∃ w', _get_contacts sample_lib "alice" w = (Ok [bob; carol], w')) ∧
  same_label req bob ∧ same_account req carol ∧ bob ≠ carol ∧
  fst (_check_contact_allowed sample_config sample_lib "alice" "1234567890" req w)
    = Raise DuplicateLabel ∧
  Raise DuplicateLabel ≠ @Raise () DuplicateAccount.
Proof.
  cbv zeta. split; [eexists; vm_compute; reflexivity|].
  split; [exists (VStr "bob"); vm_compute; auto|].
  split; [exists (VStr "1111111111"), (VStr "222222222"); vm_compute; auto|].
  split; [discriminate|].
  split; [vm_compute; reflexivity | discriminate].
Qed.

(** ** The properties of the request handler *)

(** C6. When adding a contact is answered with a bad request (some
    [UserWarning] of the field validator) or with a conflict (some
    [ValueError] of the authorization checker), the stored rows are the
    same as before and no [insert] was sent. *)
Theorem C6_failed_add_writes_nothing (config : app_config) (lib : libraries)
    (username : string) (request : request) (w w' : world)
    (answer : body) (status : nat) :
  add_contact config lib username request w = (Ok (answer, status), w') →
  status = 400 ∨ status = 409 →
  table w' = table w ∧
  ∀ stmt, stmt ∈ statements w' → stmt ∈ statements w ∨ stmt = Select username.
Proof.
  intros Hadd Hstatus.
  assert (read_only username w w') as [Htable Hsent].
  { unfold add_contact in Hadd.
    destruct (add_contact_try config lib username request w)
      as [[[b n]|e] w1] eqn:Htry.
    - simplify_eq.
      unfold add_contact_try, mbind, M_bind, mret, M_ret in Htry.
      repeat case_match; simplify_eq; lia.
    - destruct e; simplify_eq; try lia;
        eapply add_contact_try_raises; try eassumption; discriminate. }
  split; [assumption|]. intros stmt Hin.
  destruct Hsent as [Hsent|Hsent]; rewrite Hsent in Hin; [now left|].
  apply elem_of_app in Hin as [Hin|Hin]; [now left|].
  right. now apply list_elem_of_singleton in Hin.
Qed.

(** C7. For an authenticated request whose candidate passes the validator
    and is not a self-reference, a database error raised by the read of the
    stored contacts leaves the authorization checker as it is and is
    answered with the server error. *)
Theorem C7_store_error_propagates (config : app_config) (lib : libraries)
    (username : string) (request : request) (d : gmap string value)
    (auth_payload : jwt_payload) (w : world) (err : string)
    (rest : list (option string)) :
  jwt_decode lib (token_of request) (PUBLIC_KEY config) = Some auth_payload →
  user auth_payload = username →
  get_json request = VDict d →
  _validate_new_contact config (clean lib <$> d) = Ok () →
  ¬ self_reference config (acct auth_payload) (clean lib <$> d) →
  outcomes w = Some err :: rest →
  let w' := {| table := table w; outcomes := rest;
               statements := (statements w ++ [Select username])%list |} in
  _check_contact_allowed config lib username (acct auth_payload)
    (clean lib <$> d) w = (Raise (SQLAlchemyError err), w') ∧
  add_contact config lib username request w
    = (Ok (JMsg "failed to add contact", 500), w').
Proof.
  intros Hjwt Huser Hjson Hvalid Hnot Hout w'.
  assert (_check_contact_allowed config lib username (acct auth_payload)
            (clean lib <$> d) w = (Raise (SQLAlchemyError err), w')) as Hcheck.
  { apply validate_ok_present in Hvalid.
    rewrite check_contact_allowed_eq, self_test_false; try assumption.
    - now rewrite (get_contacts_fails lib username w err rest).
    - apply (all_present_lookup _ _ Hvalid). set_solver.
    - apply (all_present_lookup _ _ Hvalid). set_solver. }
  split; [assumption|].
  unfold add_contact, add_contact_try, authenticate.
  rewrite Hjwt, Huser, String.eqb_refl, Hjson. cbn [negb].
  unfold mbind at 1. unfold M_bind at 1. unfold mret at 1. unfold M_ret at 1.
  unfold mbind at 1. unfold M_bind at 1. unfold mret at 1. unfold M_ret at 1.
  unfold mbind at 1. unfold M_bind at 1. unfold lift. rewrite Hvalid.
  unfold mbind at 1. unfold M_bind at 1. now rewrite Hcheck.
Qed.

(** ** The properties at the sample data *)

Lemma candidate_all_present l a r e : all_present (candidate l a r e).
Proof.
  unfold all_present, fields, candidate.
  repeat (apply Forall_cons; split); [..|apply Forall_nil];
    simplify_map_eq; eauto.
Qed.

Lemma account_digits : digit_string 10 "9876543210".
Proof. split; [reflexivity|]. repeat split; vm_compute; lia. Qed.

Lemma routing_digits : digit_string 9 "111000025".
Proof. split; [reflexivity|]. repeat split; vm_compute; lia. Qed.

(** The candidate of the end-to-end scenario and what alice has stored. *)
Lemma savings_no_overlap :
  Forall (λ c, ¬ same_account (candidate "Savings" "9876543210" "111000025" true) c ∧
               ¬ same_label (candidate "Savings" "9876543210" "111000025" true) c)
         [bob; carol].
Proof.
  repeat (apply Forall_cons; split); [..|apply Forall_nil]; try split.
  all: intros H;
    first [ apply (same_account_iff _ (VStr "9876543210") (VStr "111000025")) in H
          | apply (same_label_iff _ (VStr "Savings")) in H ];
    try reflexivity; vm_compute in H; discriminate.
Qed.

Lemma savings_not_self :
  ¬ self_reference sample_config "1234567890"
      (candidate "Savings" "9876543210" "111000025" true).
Proof. intros H. apply self_test_true in H. vm_compute in H. discriminate. Qed.

Lemma C3_validate_order_witness :
  _validate_new_contact sample_config
    (delete "label" (candidate "Savings" "12345" "883745000" true))
    = Raise MissingField ∧
  _validate_new_contact sample_config (candidate " Savings" "12345" "1" true)
    = Raise InvalidAccountNumber ∧
  _validate_new_contact sample_config (candidate " Savings" "9876543210" "1" true)
    = Raise InvalidRoutingNumber ∧
  _validate_new_contact sample_config (candidate " Savings" "9876543210" "111000025" true)
    = Raise InvalidLabel ∧
  _validate_new_contact sample_config (candidate "Savings" "9876543210" "111000025" true)
    = Ok ().
Proof.
  split.
  { apply (C3_validate_order sample_config).
    exists "label". split; [set_solver | reflexivity]. }
  split.
  { destruct (C3_validate_order sample_config
                (candidate " Savings" "12345" "1" true)) as [_ H].
    destruct (H (candidate_all_present _ _ _ _) "12345") as [Hbad _];
      [reflexivity|].
    apply Hbad. intros [Hlen _]. discriminate. }
  split.
  { destruct (C3_validate_order sample_config
                (candidate " Savings" "9876543210" "1" true)) as [_ H].
    destruct (H (candidate_all_present _ _ _ _) "9876543210") as [_ H1];
      [reflexivity|].
    destruct (H1 account_digits "1") as [Hbad _]; [reflexivity|].
    apply Hbad. intros [Hlen _]. discriminate. }
  split.
  { destruct (C3_validate_order sample_config
                (candidate " Savings" "9876543210" "111000025" true)) as [_ H].
    destruct (H (candidate_all_present _ _ _ _) "9876543210") as [_ H1];
      [reflexivity|].
    destruct (H1 account_digits "111000025") as [_ H2]; [reflexivity|].
    destruct (H2 routing_digits (VBool true)) as [_ H3]; [reflexivity|].
    destruct (H3 eq_refl " Savings") as [Hbad _]; [reflexivity|].
    apply Hbad. reflexivity. }
  destruct (C3_validate_order sample_config
              (candidate "Savings" "9876543210" "111000025" true)) as [_ H].
  destruct (H (candidate_all_present _ _ _ _) "9876543210") as [_ H1];
    [reflexivity|].
  destruct (H1 account_digits "111000025") as [_ H2]; [reflexivity|].
  destruct (H2 routing_digits (VBool true)) as [_ H3]; [reflexivity|].
  destruct (H3 eq_refl "Savings") as [_ Hgood]; [reflexivity|].
  apply Hgood. reflexivity.
Defined.

Lemma C8_account_number_check_witness :
  all_present (candidate "Savings" "98765432x0" "111000025" true) ∧
  _validate_new_contact sample_config
    (candidate "Savings" "98765432x0" "111000025" true)
    = Raise InvalidAccountNumber.
Proof.
  split; [apply candidate_all_present|].
  apply (C8_account_number_check sample_config _ "98765432x0");
    [apply candidate_all_present | reflexivity |].
  right. intros H. vm_compute in H. lia.
Defined.

Lemma C5_external_local_routing_witness :
  LOCAL_ROUTING sample_config = Some "883745000" ∧
  _validate_new_contact sample_config
    (candidate "Savings" "9876543210" "883745000" true)
    = Raise InvalidRoutingNumber.
Proof.
  split; [reflexivity|].
  apply (C5_external_local_routing sample_config _ "9876543210" "883745000");
    [apply candidate_all_present | reflexivity | apply account_digits
    | reflexivity | reflexivity | reflexivity].
Defined.

Lemma C4_self_reference_witness :
  fst (_check_contact_allowed sample_config sample_lib "alice" "1234567890"
         (candidate "me" "1234567890" "883745000" false) (alice_world []))
    = Raise SelfReference.
Proof.
  apply (C4_self_reference sample_config sample_lib "alice" "1234567890"
           "883745000"); reflexivity.
Defined.

Lemma C10_self_reference_before_fetch_witness :
  let w := alice_world [Some "connection lost"] in
  _check_contact_allowed sample_config sample_lib "alice" "1234567890"
    (candidate "me" "1234567890" "883745000" false) w
    = (Raise SelfReference, w) ∧
  fst (_get_contacts sample_lib "alice" w)
    = Raise (SQLAlchemyError "connection lost").
Proof.
  cbv zeta.
  destruct (C10_self_reference_before_fetch sample_config sample_lib "alice"
              "1234567890" (candidate "me" "1234567890" "883745000" false)
              (alice_world [Some "connection lost"])) as [Hcheck Hfetch].
  { exists (VStr "1234567890"), (VStr "883745000"). repeat split; reflexivity. }
  split; [exact Hcheck | exact (Hfetch "connection lost" [] eq_refl)].
Defined.

Lemma C9_no_overlap_allowed_witness :
  fst (_check_contact_allowed sample_config sample_lib "alice" "1234567890"
         (candidate "Savings" "9876543210" "111000025" true) (alice_world []))
    = Ok ().
Proof.
  erewrite (C9_no_overlap_allowed sample_config sample_lib "alice" "1234567890"
              (candidate "Savings" "9876543210" "111000025" true) [bob; carol]
              (alice_world []));
    [reflexivity | | | | apply savings_not_self | vm_compute; reflexivity
    | apply savings_no_overlap ];
    eexists; reflexivity.
Defined.

Lemma C1_first_conflicting_entry_decides_witness :
  fst (_check_contact_allowed sample_config sample_lib "alice" "1234567890"
         (candidate "bob" "1111111111" "222222222" false) (alice_world []))
    = Raise DuplicateLabel.
Proof.
  destruct (C1_first_conflicting_entry_decides sample_config sample_lib "alice"
              "1234567890" (candidate "bob" "1111111111" "222222222" false)
              [] bob [carol] (alice_world [])
              (snd (_get_contacts sample_lib "alice" (alice_world []))))
    as [_ Hlabel].
  - eexists; reflexivity.
  - eexists; reflexivity.
  - eexists; reflexivity.
  - intros H. apply self_test_true in H. vm_compute in H. discriminate.
  - vm_compute; reflexivity.
  - constructor.
  - rewrite Hlabel; [reflexivity | |].
    + intros H.
      apply (same_account_iff _ (VStr "1111111111") (VStr "222222222")) in H;
        try reflexivity.
      vm_compute in H. discriminate.
    + exists (VStr "bob"). split; reflexivity.
Defined.

Lemma C6_failed_add_writes_nothing_witness :
  let w := alice_world [] in
  let w' := snd (add_contact sample_config sample_lib "alice"
                   (post "alice.token" (candidate "bob" "1111111111" "222222222" false))
                   w) in
  table w' = table w ∧
  ∀ stmt, stmt ∈ statements w' → stmt ∈ statements w ∨ stmt = Select "alice".
Proof.
  cbv zeta.
  apply (C6_failed_add_writes_nothing sample_config sample_lib "alice"
           (post "alice.token" (candidate "bob" "1111111111" "222222222" false))
           (alice_world []) _
           (JMsg "contact already exists with that label") 409);
    [vm_compute; reflexivity | right; reflexivity].
Defined.

Lemma C7_store_error_propagates_witness :
  fst (add_contact sample_config sample_lib "alice"
         (post "alice.token" (candidate "Savings" "9876543210" "111000025" true))
         (alice_world [Some "connection lost"]))
    = Ok (JMsg "failed to add contact", 500).
Proof.
  destruct (C7_store_error_propagates sample_config sample_lib "alice"
              (post "alice.token" (candidate "Savings" "9876543210" "111000025" true))
              (candidate "Savings" "9876543210" "111000025" true)
              {| user := "alice"; acct := "1234567890" |}
              (alice_world [Some "connection lost"]) "connection lost" [])
    as [_ Hadd].
  - vm_compute; reflexivity.
  - reflexivity.
  - reflexivity.
  - vm_compute; reflexivity.
  - intros H. apply self_test_true in H. vm_compute in H. discriminate.
  - reflexivity.
  - rewrite Hadd. reflexivity.
Defined.
